(** * Conversation history manager (src/utils/conversation_manager.py)

    A shallow embedding of [truncate_content] and of the class
    [ConversationManager], followed by the properties of the design
    document that concern them.

    Conventions of the embedding:
    - a Python [int] is a [Z];
    - a Python [str] is a [list ascii] (one element per character), so that
      slices of strings and slices of message lists share one definition;
    - an instance of [ConversationManager] is a record, and its methods are
      computations of a small state monad over that record. *)

From Stdlib Require Import ZArith Ascii String.
From stdpp Require Import base numbers list.

Local Open Scope Z_scope.

(** ** Python sequences *)

Module Py.

Definition str := list ascii.

(** A string literal of the source. *)
Definition lit (s : string) : str := list_ascii_of_string s.

(** The character written [\n] in the source. *)
Definition nl : ascii := ascii_of_nat 10.

(** [len(l)] *)
Definition len {A} (l : list A) : Z := Z.of_nat (length l).

(** The position a slice bound [k] denotes in [l]: a negative bound counts
    from the end, and every bound is clamped to [0 .. len(l)]. *)
Definition bound {A} (l : list A) (k : Z) : nat :=
  if k <? 0 then Z.to_nat (Z.max 0 (len l + k))
  else Z.to_nat (Z.min k (len l)).

(** [l[:k]] *)
Definition slice_to {A} (l : list A) (k : Z) : list A := take (bound l k) l.

(** [l[k:]] *)
Definition slice_from {A} (l : list A) (k : Z) : list A := drop (bound l k) l.

(** [sep.join(parts)] *)
Fixpoint join (sep : str) (parts : list str) : str :=
  match parts with
  | [] => []
  | [p] => p
  | p :: rest => p ++ sep ++ join sep rest
  end.

(** [s.split(sep)] for a separator [sep] of one character: the pieces of
    [s] between the occurrences of [sep]. *)
Fixpoint split_on (sep : ascii) (s : str) : list str :=
  match s with
  | [] => [[]]
  | c :: s' =>
      if Ascii.eqb c sep then [] :: split_on sep s'
      else
        match split_on sep s' with
        | [] => [[c]]
        | piece :: pieces => (c :: piece) :: pieces
        end
  end.

(** [s.startswith(p)] *)
Fixpoint startswith (s p : str) {struct p} : bool :=
  match p, s with
  | [], _ => true
  | _ :: _, [] => false
  | a :: p', b :: s' => if Ascii.eqb a b then startswith s' p' else false
  end.

(** [sub in s] *)
Fixpoint contains (sub s : str) : bool :=
  startswith s sub ||
  match s with
  | [] => false
  | _ :: s' => contains sub s'
  end.

(** [s.endswith(p)] *)
Definition endswith (s p : str) : bool := startswith (rev s) (rev p).

(** The truth value of an [Optional[str]]: [None] and the empty string are
    false. *)
Definition truthy (o : option str) : bool :=
  match o with
  | Some (_ :: _) => true
  | _ => false
  end.

(** What an f-string prints for an [Optional[str]]. *)
Definition format (o : option str) : str :=
  match o with
  | Some s => s
  | None => lit "None"
  end.

End Py.

Import Py.

(** The first and the last [k] characters of a string, as the design
    document speaks of them. *)
Definition first_chars (k : nat) (s : str) : str := take k s.
Definition last_chars (k : nat) (s : str) : str := drop (length s - k) s.

(** ** Module constants *)

Definition MAX_CONTENT_LENGTH : Z := 900000.
Definition MAX_MESSAGES_BEFORE_SUMMARY : Z := 30.
Definition SUMMARY_PRESERVE_RECENT : Z := 5.

(** ** truncate_content *)

Definition truncation_notice : str :=
  nl :: lit "...Content truncated..." ++ [nl].

Definition truncate_content (content : str) (max_length : Z) : str :=
  if len content <=? max_length then content
  else
    let half_length := max_length `div` 2 in
    slice_to content half_length
      ++ truncation_notice
      ++ slice_from content (- half_length).

(** ** Messages

    The classes of [langchain_core.messages] the module dispatches on with
    [isinstance]. [Other] stands for every [BaseMessage] that is an instance
    of none of the three (a tool, function or chat message). *)

Inductive role := System | Human | AI | Other.

#[global] Instance role_eq_dec : EqDecision role.
Proof. solve_decision. Defined.

(** A message carries its class, its [content] and its [name]. [BaseMessage]
    declares [name: Optional[str] = None], so the attribute exists on every
    message and holds [None] when no name was given. The embedding covers
    messages whose [content] is a [str], for which the test
    [hasattr(message, 'content') and isinstance(message.content, str)]
    succeeds. *)
Record Message := mkMessage {
  kind : role;
  content : str;
  name : option str
}.

Definition SystemMessage (c : str) : Message := mkMessage System c None.
Definition HumanMessage (c : str) (n : option str) : Message := mkMessage Human c n.
Definition AIMessage (c : str) (n : option str) : Message := mkMessage AI c n.

(** ** The manager and its state monad *)

Record ConversationManager := mkManager {
  max_messages : Z;
  max_content_length : Z;
  preserve_recent : Z;
  messages : list Message;
  summary : option str
}.

(** [ConversationManager.__init__] *)
Definition init (max_messages max_content_length preserve_recent : Z)
  : ConversationManager :=
  mkManager max_messages max_content_length preserve_recent [] None.

(** [create_conversation_manager] *)
Definition create_conversation_manager
  (max_messages max_content_length preserve_recent : Z) : ConversationManager :=
  init max_messages max_content_length preserve_recent.

(** A method is a function from the instance before the call to its result
    and the instance after the call. *)
Definition M (A : Type) : Type := ConversationManager -> A * ConversationManager.

Definition ret {A} (a : A) : M A := fun self => (a, self).

Definition bind {A B} (m : M A) (k : A -> M B) : M B :=
  fun self => k (m self).1 (m self).2.

(** Reading an attribute of [self]. *)
Definition attr {A} (f : ConversationManager -> A) : M A :=
  fun self => (f self, self).

(** [self.messages = l] *)
Definition set_messages (l : list Message) : M unit :=
  fun self =>
    (tt, mkManager (max_messages self) (max_content_length self)
           (preserve_recent self) l (summary self)).

(** [self.summary = o] *)
Definition set_summary (o : option str) : M unit :=
  fun self =>
    (tt, mkManager (max_messages self) (max_content_length self)
           (preserve_recent self) (messages self) o).

(** The result of a call and the instance it leaves. *)
Definition result {A} (m : M A) (self : ConversationManager) : A := (m self).1.
Definition after {A} (m : M A) (self : ConversationManager) : ConversationManager :=
  (m self).2.

Declare Scope method_scope.
Delimit Scope method_scope with method.
Notation "x <- m ;; k" := (bind m (fun x => k))
  (at level 100, m at next level, right associativity) : method_scope.
Notation "m ;; k" := (bind m (fun _ => k))
  (at level 100, right associativity) : method_scope.
Notation "'when' b 'then' m" := (if b then m else ret tt)
  (at level 100, b at next level) : method_scope.

Local Open Scope method_scope.

(** ** _create_summary_for_content *)

Definition summarized_notice : str :=
  nl :: nl :: lit "...Content summarized..." ++ [nl; nl].

Definition _create_summary_for_content
  (self : ConversationManager) (content : str) : str :=
  if len content <=? 500 then content
  else
    let beginning := slice_to content 200 in
    let ending := slice_from content (-200) in
    beginning ++ summarized_notice ++ ending.

(** ** _create_summary *)

(** [content[:200] + "..." if len(content) > 200 else content] *)
Definition shorten (c : str) : str :=
  if len c >? 200 then slice_to c 200 ++ lit "..." else c.

(** One turn of the loop over [messages_to_summarize]: the lines appended to
    [summary_parts] for [msg]. *)
Definition summary_line (msg : Message) : list str :=
  match kind msg with
  | System => []
  | Human => [lit "User: " ++ shorten (content msg)]
  | AI =>
      let agent_name := name msg in
      [format agent_name ++ lit ": " ++ shorten (content msg)]
  | Other => []
  end.

(** [summary_parts] when the loop has finished. *)
Definition summary_parts (old : option str) (to_summarize : list Message)
  : list str :=
  (if truthy old
   then [lit "Previous conversation summary: " ++ format old]
   else [])
  ++ concat (map summary_line to_summarize).

(** ["\n".join(summary_parts) if summary_parts else None] *)
Definition join_parts (parts : list str) : option str :=
  match parts with
  | [] => None
  | _ :: _ => Some (join [nl] parts)
  end.

Definition _create_summary : M unit :=
  msgs <- attr messages;;
  keep <- attr preserve_recent;;
  if len msgs <=? keep then ret tt
  else
    let messages_to_summarize := slice_to msgs (- keep) in
    let recent_messages := slice_from msgs (- keep) in
    old <- attr summary;;
    set_summary (join_parts (summary_parts old messages_to_summarize));;
    set_messages recent_messages.

(** ** add_message *)

(** The message that is appended: an over-long [content] is replaced by its
    summary in a new message of the same class; a message of another class
    is kept as it is. *)
Definition ingest (self : ConversationManager) (message : Message) : Message :=
  if len (content message) >? max_content_length self then
    let truncated_content := _create_summary_for_content self (content message) in
    match kind message with
    | AI => AIMessage truncated_content (name message)
    | Human => HumanMessage truncated_content (name message)
    | System => SystemMessage truncated_content
    | Other => message
    end
  else message.

Definition add_message (message : Message) : M unit :=
  self <- attr id;;
  let message := ingest self message in
  msgs <- attr messages;;
  limit <- attr max_messages;;
  (when len msgs >=? limit then _create_summary);;
  msgs <- attr messages;;
  set_messages (msgs ++ [message]);;
  msgs <- attr messages;;
  keep <- attr preserve_recent;;
  when len msgs >? keep then _create_summary.

(** ** Read accessors and clear *)

Definition get_messages (summary_mode : bool) : M (list Message) :=
  s <- attr summary;;
  msgs <- attr messages;;
  if negb summary_mode || negb (truthy s) then ret msgs
  else
    let summary_message :=
      SystemMessage (lit "Conversation Summary:" ++ [nl] ++ format s) in
    ret ([summary_message] ++ msgs).

Definition get_recent_messages (count : Z) : M (list Message) :=
  msgs <- attr messages;;
  ret (if count >? 0 then slice_from msgs (- count) else []).

Definition clear : M unit :=
  set_messages [];;
  set_summary None.

Record Stats := mkStats {
  total_messages : Z;
  has_summary : bool;
  summary_length : Z;
  total_content_length : Z;
  max_messages_threshold : Z;
  preserve_recent_count : Z
}.

Definition sum (l : list Z) : Z := foldr Z.add 0 l.

Definition get_conversation_stats : M Stats :=
  msgs <- attr messages;;
  s <- attr summary;;
  limit <- attr max_messages;;
  keep <- attr preserve_recent;;
  let total_content_length := sum (map (fun msg => len (content msg)) msgs) in
  ret (mkStats (len msgs)
               (if s is Some _ then true else false)
               (if truthy s then len (format s) else 0)
               total_content_length
               limit
               keep).

(** ** Specification vocabulary *)

(** [sub] occurs in [s] as a contiguous run of characters. *)
Definition occurs_in (sub s : str) : Prop := exists a b, s = a ++ sub ++ b.

(** Every stored message has a [content] of at most [max_content_length]
    characters. *)
Definition within_limit (self : ConversationManager) : Prop :=
  Forall (fun msg => len (content msg) <= max_content_length self) (messages self).

(** Two managers hold the same conversation: they agree on everything but,
    possibly, [max_messages]. *)
Definition same_conversation (a b : ConversationManager) : Prop :=
  max_content_length a = max_content_length b /\
  preserve_recent a = preserve_recent b /\
  messages a = messages b /\
  summary a = summary b.

(** A caller that makes the same call twice in a row and keeps both
    results. *)
Definition twice {A} (m : M A) : M (A * A) :=
  r1 <- m;; r2 <- m;; ret (r1, r2).

(** A caller that adds the messages of [l] one after the other. *)
Fixpoint add_all (l : list Message) : M unit :=
  match l with
  | [] => ret tt
  | message :: rest => add_message message;; add_all rest
  end.

(** ** Facts about slices *)

Section Slices.
Context {A : Type}.
Implicit Types (l : list A) (k : Z).

Lemma len_nonneg l : 0 <= len l.
Proof. unfold len. lia. Qed.

Lemma len_app l1 l2 : len (l1 ++ l2) = len l1 + len l2.
Proof. unfold len. rewrite length_app. lia. Qed.

Lemma bound_le l k : (bound l k <= length l)%nat.
Proof. unfold bound, len. destruct (k <? 0) eqn:E; lia. Qed.

Lemma bound_nonneg l k : 0 <= k -> k <= len l -> bound l k = Z.to_nat k.
Proof. unfold bound, len. intros H1 H2. destruct (k <? 0) eqn:E; lia. Qed.

Lemma bound_neg l k :
  0 < k -> k <= len l -> bound l (- k) = (length l - Z.to_nat k)%nat.
Proof. unfold bound, len. intros H1 H2. destruct (- k <? 0) eqn:E; lia. Qed.

Lemma bound_neg_zero l : bound l (- 0) = 0%nat.
Proof. unfold bound. simpl. lia. Qed.

(** [l[:k] + l[k:] == l] for every bound. *)
Lemma slice_partition l k : slice_to l k ++ slice_from l k = l.
Proof. apply take_drop. Qed.

Lemma slice_from_suffix l k : slice_from l k `suffix_of` l.
Proof. apply suffix_drop. Qed.

Lemma slice_to_prefix l k : slice_to l k `prefix_of` l.
Proof. apply prefix_take. Qed.

(** [l[-0:]] is the whole of [l], and [l[:-0]] is empty. *)
Lemma slice_from_neg_zero l : slice_from l (- 0) = l.
Proof. unfold slice_from. rewrite bound_neg_zero. apply drop_0. Qed.

Lemma slice_to_neg_zero l : slice_to l (- 0) = [].
Proof. unfold slice_to. rewrite bound_neg_zero. apply take_0. Qed.

Lemma slice_to_first l k :
  0 <= k -> k <= len l -> slice_to l k = take (Z.to_nat k) l.
Proof. intros H1 H2. unfold slice_to. by rewrite bound_nonneg. Qed.

Lemma slice_from_last l k :
  0 < k -> k <= len l -> slice_from l (- k) = drop (length l - Z.to_nat k) l.
Proof. intros H1 H2. unfold slice_from. by rewrite bound_neg. Qed.

Lemma len_slice_to l k : 0 <= k -> k <= len l -> len (slice_to l k) = k.
Proof.
  intros H1 H2. rewrite slice_to_first by done.
  unfold len in *. rewrite length_take. lia.
Qed.

Lemma len_slice_from_last l k :
  0 < k -> k <= len l -> len (slice_from l (- k)) = k.
Proof.
  intros H1 H2. rewrite slice_from_last by done.
  unfold len in *. rewrite length_drop. lia.
Qed.

End Slices.

Lemma occurs_in_middle (a sub b : str) : occurs_in sub (a ++ sub ++ b).
Proof. by exists a, b. Qed.

Lemma occurs_in_widen (sub mid s : str) :
  occurs_in sub mid -> occurs_in mid s -> occurs_in sub s.
Proof.
  intros (a & b & ->) (c & d & ->). exists (c ++ a), (b ++ d).
  by rewrite <- !app_assoc.
Qed.

(** ** truncate_content *)

Lemma truncate_content_short (s : str) (max_length : Z) :
  len s <= max_length -> truncate_content s max_length = s.
Proof.
  intros H. unfold truncate_content.
  destruct (len s <=? max_length) eqn:E; [done | lia].
Qed.

Lemma truncate_content_long (s : str) (max_length : Z) :
  max_length < len s ->
  truncate_content s max_length =
    slice_to s (max_length `div` 2) ++ truncation_notice
      ++ slice_from s (- (max_length `div` 2)).
Proof.
  intros H. unfold truncate_content.
  destruct (len s <=? max_length) eqn:E; [lia | done].
Qed.

Lemma half_bounds (m : Z) : 0 <= m -> 0 <= m `div` 2 <= m.
Proof. intros H. Z.to_euclidean_division_equations. lia. Qed.

Lemma half_positive (m : Z) : 2 <= m -> 0 < m `div` 2.
Proof. intros H. Z.to_euclidean_division_equations. lia. Qed.

(** C6, as the code has it. For every string [s] and [max_length >= 0]:
    [truncate_content] returns [s] unchanged when [len(s) <= max_length];
    when [len(s) > max_length] and [max_length >= 2] the result is the first
    [max_length // 2] characters of [s], the truncation marker line, and the
    last [max_length // 2] characters of [s]; and a result equal to [s] means
    that [len(s) <= max_length] or that [s] already contains the marker. *)
Theorem truncate_content_spec (s : str) (max_length : Z) :
  0 <= max_length ->
  (len s <= max_length -> truncate_content s max_length = s) /\
  (max_length < len s -> 2 <= max_length ->
     truncate_content s max_length =
       first_chars (Z.to_nat (max_length `div` 2)) s
         ++ truncation_notice
         ++ last_chars (Z.to_nat (max_length `div` 2)) s) /\
  (truncate_content s max_length = s ->
     len s <= max_length \/ occurs_in truncation_notice s).
Proof.
  intros Hm. split; [apply truncate_content_short|]. split.
  - intros Hlong Htwo. rewrite truncate_content_long by done.
    pose proof (half_bounds max_length Hm) as Hh.
    pose proof (half_positive max_length Htwo) as Hp.
    rewrite slice_to_first, slice_from_last by lia. done.
  - intros Hfix. destruct (decide (len s <= max_length)) as [Hle|Hgt]; [by left|].
    right. rewrite truncate_content_long in Hfix by lia.
    rewrite <- Hfix. apply occurs_in_middle.
Qed.

Lemma truncate_content_spec_witness :
  0 <= 4 /\
  truncate_content (lit "ab") 4 = lit "ab" /\
  truncate_content (lit "abcdefgh") 4 =
    lit "ab" ++ truncation_notice ++ lit "gh".
Proof.
  split; [lia|].
  pose proof (truncate_content_spec (lit "ab") 4 ltac:(lia)) as (Hs & _ & _).
  pose proof (truncate_content_spec (lit "abcdefgh") 4 ltac:(lia)) as (_ & Hl & _).
  split; [apply Hs; vm_compute; congruence | apply Hl; vm_compute; congruence || reflexivity].
Defined.

(** C6, as it is worded, fails: the string below is longer than
    [max_length = 2], and [truncate_content] returns it unchanged, since it
    already is one character, the marker line and one character. *)
Lemma truncate_content_iff_fails :
  let s := lit "a" ++ truncation_notice ++ lit "b" in
  ~ (truncate_content s 2 = s <-> len s <= 2).
Proof.
  intros s [Hif _]. assert (len s <= 2) as H by (apply Hif; reflexivity).
  vm_compute in H. congruence.
Qed.

(** With [max_length < 2] the half length is [0], and [content[-0:]] is the
    whole of [content]: the result is the marker followed by all of [s], not
    by its last [0] characters. *)
Lemma truncate_content_half_zero (s : str) (max_length : Z) :
  0 <= max_length < 2 -> max_length < len s ->
  truncate_content s max_length = truncation_notice ++ s.
Proof.
  intros Hm Hlong. rewrite truncate_content_long by done.
  assert (max_length `div` 2 = 0) as -> by (Z.to_euclidean_division_equations; lia).
  by rewrite slice_from_neg_zero, slice_to_first by (pose proof (len_nonneg s); lia).
Qed.

Example truncate_content_half_zero_ex :
  truncate_content (lit "ab") 1 = truncation_notice ++ lit "ab" /\
  truncate_content (lit "ab") 1 <>
    first_chars 0 (lit "ab") ++ truncation_notice ++ last_chars 0 (lit "ab").
Proof. split; [reflexivity | vm_compute; congruence]. Qed.

(** ** Substring tests *)

Lemma startswith_spec (s p : str) : startswith s p = true <-> p `prefix_of` s.
Proof.
  revert s. induction p as [|a p IH]; intros s; simpl.
  - split; [intros _; apply prefix_nil | done].
  - destruct s as [|b s].
    + split; [done | intros [k Hk]; discriminate].
    + destruct (Ascii.eqb a b) eqn:E.
      * apply Ascii.eqb_eq in E as ->. rewrite IH. split.
        -- apply prefix_cons.
        -- apply prefix_cons_inv_2.
      * split; [done|]. intros H. apply prefix_cons_inv_1 in H as ->.
        by rewrite Ascii.eqb_refl in E.
Qed.

Lemma contains_spec (sub s : str) : contains sub s = true <-> occurs_in sub s.
Proof.
  induction s as [|c s IH]; simpl.
  - rewrite orb_false_r, startswith_spec. split.
    + intros [k Hk]. by exists [], k.
    + intros (a & b & H). symmetry in H.
      apply app_eq_nil in H as [-> H]. apply app_eq_nil in H as [-> ->].
      apply prefix_nil.
  - rewrite orb_true_iff, IH, startswith_spec. split.
    + intros [[k Hk] | (a & b & ->)].
      * by exists [], k.
      * by exists (c :: a), b.
    + intros (a & b & H). destruct a as [|c' a]; simpl in H.
      * left. by exists b.
      * right. injection H as _ ->. by exists a, b.
Qed.

(** ** _create_summary_for_content *)

Lemma summarized_notice_marker :
  occurs_in (lit "Content summarized") summarized_notice.
Proof. apply contains_spec. reflexivity. Qed.

(** C7. For every string [s], whatever the manager and its
    [max_content_length]: [_create_summary_for_content] returns [s] unchanged
    when [len(s) <= 500]; when [len(s) > 500] its result is [s[:200]], the
    "Content summarized" marker and [s[-200:]], so it starts with the first
    200 characters of [s], ends with the last 200 and contains the marker. *)
Theorem create_summary_for_content_spec (self : ConversationManager) (s : str) :
  (len s <= 500 -> _create_summary_for_content self s = s) /\
  (500 < len s ->
     _create_summary_for_content self s =
       first_chars 200 s ++ summarized_notice ++ last_chars 200 s /\
     slice_to s 200 = first_chars 200 s /\
     slice_from s (-200) = last_chars 200 s /\
     slice_to s 200 `prefix_of` _create_summary_for_content self s /\
     slice_from s (-200) `suffix_of` _create_summary_for_content self s /\
     occurs_in (lit "Content summarized") (_create_summary_for_content self s)).
Proof.
  unfold _create_summary_for_content. split; intros H.
  - destruct (len s <=? 500) eqn:E; [done | lia].
  - destruct (len s <=? 500) eqn:E; [lia|].
    assert (slice_to s 200 = first_chars 200 s) as Hb
      by (rewrite slice_to_first by lia; done).
    assert (slice_from s (-200) = last_chars 200 s) as He
      by exact (slice_from_last s 200 ltac:(lia) ltac:(lia)).
    rewrite Hb, He. repeat split.
    + by eexists.
    + exists (first_chars 200 s ++ summarized_notice). by rewrite <- app_assoc.
    + eapply occurs_in_widen; [apply summarized_notice_marker|].
      apply occurs_in_middle.
Qed.

Lemma create_summary_for_content_spec_witness :
  let self := init 30 100 5 in
  let short := repeat "X"%char 200 in
  let long := repeat "A"%char 300 ++ repeat "B"%char 300 in
  (len short <= 500 /\ _create_summary_for_content self short = short) /\
  (500 < len long /\
   _create_summary_for_content self long =
     repeat "A"%char 200 ++ summarized_notice ++ repeat "B"%char 200).
Proof.
  intros self short long. split.
  - assert (len short <= 500) as H by (vm_compute; congruence).
    split; [exact H|].
    exact (proj1 (create_summary_for_content_spec self short) H).
  - assert (500 < len long) as H by (vm_compute; congruence).
    split; [exact H|].
    exact (proj1 (proj2 (create_summary_for_content_spec self long) H)).
Defined.

Lemma len_summarized (self : ConversationManager) (s : str) :
  500 < len s -> len (_create_summary_for_content self s) = 428.
Proof.
  intros H. unfold _create_summary_for_content.
  destruct (len s <=? 500) eqn:E; [lia|].
  pose proof (len_slice_from_last s 200 ltac:(lia) ltac:(lia)) as He.
  change (- (200)) with (-200) in He.
  rewrite !len_app, len_slice_to, He by lia.
  reflexivity.
Qed.

(** ** _create_summary *)

Lemma create_summary_noop (self : ConversationManager) :
  len (messages self) <= preserve_recent self ->
  _create_summary self = (tt, self).
Proof.
  intros H. unfold _create_summary, bind, attr, ret. simpl.
  destruct (len (messages self) <=? preserve_recent self) eqn:E; [done | lia].
Qed.

Lemma create_summary_fold (self : ConversationManager) :
  preserve_recent self < len (messages self) ->
  _create_summary self =
    (tt, mkManager (max_messages self) (max_content_length self)
           (preserve_recent self)
           (slice_from (messages self) (- preserve_recent self))
           (join_parts
              (summary_parts (summary self)
                 (slice_to (messages self) (- preserve_recent self))))).
Proof.
  intros H. unfold _create_summary, bind, attr, ret. simpl.
  destruct (len (messages self) <=? preserve_recent self) eqn:E; [lia | done].
Qed.

(** A fold leaves the three limits as they are and keeps a suffix of the
    stored messages. *)
Lemma create_summary_frame (self : ConversationManager) :
  let self' := after _create_summary self in
  max_messages self' = max_messages self /\
  max_content_length self' = max_content_length self /\
  preserve_recent self' = preserve_recent self /\
  messages self' `suffix_of` messages self.
Proof.
  unfold after.
  destruct (decide (len (messages self) <= preserve_recent self)) as [H|H].
  - by rewrite create_summary_noop.
  - rewrite create_summary_fold by lia. simpl.
    repeat split. apply slice_from_suffix.
Qed.

Lemma create_summary_len (self : ConversationManager) :
  1 <= preserve_recent self ->
  len (messages (after _create_summary self)) <= preserve_recent self.
Proof.
  intros Hk. unfold after.
  destruct (decide (len (messages self) <= preserve_recent self)) as [H|H].
  - by rewrite create_summary_noop.
  - rewrite create_summary_fold by lia. simpl.
    rewrite len_slice_from_last; lia.
Qed.

(** ** add_message *)

(** The three steps of [add_message]: a fold when the window is full, the
    append, and a fold when more than [preserve_recent] messages are stored. *)
Lemma add_message_steps (self : ConversationManager) (message : Message) :
  let before :=
    if len (messages self) >=? max_messages self
    then after _create_summary self else self in
  let appended :=
    after (set_messages (messages before ++ [ingest self message])) before in
  after (add_message message) self =
    if len (messages appended) >? preserve_recent appended
    then after _create_summary appended else appended.
Proof.
  unfold add_message, after, bind, attr, ret. simpl.
  destruct (len (messages self) >=? max_messages self); simpl;
    match goal with |- context [if ?c then _ else _] => destruct c end;
    reflexivity.
Qed.

Lemma add_message_frame (self : ConversationManager) (message : Message) :
  let self' := after (add_message message) self in
  max_messages self' = max_messages self /\
  max_content_length self' = max_content_length self /\
  preserve_recent self' = preserve_recent self /\
  messages self' `suffix_of` messages self ++ [ingest self message].
Proof.
  intros self'. subst self'. rewrite add_message_steps.
  set (before := if len (messages self) >=? max_messages self
                 then after _create_summary self else self).
  assert (max_messages before = max_messages self /\
          max_content_length before = max_content_length self /\
          preserve_recent before = preserve_recent self /\
          messages before `suffix_of` messages self) as (Hm & Hc & Hp & Hs).
  { subst before. destruct (len (messages self) >=? max_messages self).
    - apply create_summary_frame.
    - done. }
  set (appended := after (set_messages _) before).
  assert (messages appended `suffix_of` messages self ++ [ingest self message])
    as Happ by (by apply suffix_app).
  destruct (len (messages appended) >? preserve_recent appended).
  - destruct (create_summary_frame appended) as (Hm' & Hc' & Hp' & Hs').
    rewrite Hm', Hc', Hp'. repeat split; try done.
    by etrans.
  - done.
Qed.

(** C4. For every manager with [preserve_recent >= 1] and every message,
    when [add_message] has returned at most [preserve_recent] messages are
    stored. *)
Theorem add_message_len (self : ConversationManager) (message : Message) :
  1 <= preserve_recent self ->
  len (messages (after (add_message message) self)) <= preserve_recent self.
Proof.
  intros Hk. rewrite add_message_steps.
  set (before := if len (messages self) >=? max_messages self
                 then after _create_summary self else self).
  assert (preserve_recent before = preserve_recent self) as Hp.
  { subst before. destruct (len (messages self) >=? max_messages self).
    - apply create_summary_frame.
    - done. }
  set (appended := after (set_messages _) before).
  assert (preserve_recent appended = preserve_recent self) as Hp' by done.
  destruct (len (messages appended) >? preserve_recent appended) eqn:E.
  - rewrite <- Hp'. apply create_summary_len. lia.
  - lia.
Qed.

Lemma add_message_len_witness :
  let self := mkManager 30 900000 2
                [HumanMessage (lit "a") None; SystemMessage (lit "b");
                 AIMessage (lit "c") None] None in
  1 <= preserve_recent self /\
  len (messages (after (add_message (HumanMessage (lit "d") None)) self)) <= 2.
Proof.
  intros self. split; [simpl; lia|].
  apply (add_message_len self (HumanMessage (lit "d") None)). simpl. lia.
Defined.

(** What [add_message] appends is within the limit, when the limit is at
    least the threshold of [_create_summary_for_content]. *)
Lemma ingest_within_limit (self : ConversationManager) (message : Message) :
  500 <= max_content_length self ->
  kind message <> Other ->
  len (content (ingest self message)) <= max_content_length self.
Proof.
  intros Hlim Hkind. unfold ingest.
  destruct (len (content message) >? max_content_length self) eqn:E; [|lia].
  assert (len (_create_summary_for_content self (content message)) = 428)
    as Hlen by (apply len_summarized; lia).
  destruct (kind message); simpl; try lia. done.
Qed.

Lemma ingest_kind (self : ConversationManager) (message : Message) :
  kind (ingest self message) = kind message.
Proof.
  unfold ingest.
  destruct (len (content message) >? max_content_length self); [|done].
  by destruct (kind message) eqn:E.
Qed.




(** ** The summary lines of a fold *)

Lemma summary_line_system (msg : Message) :
  kind msg = System -> summary_line msg = [].
Proof. unfold summary_line. by intros ->. Qed.

Lemma summary_line_other (msg : Message) :
  kind msg = Other -> summary_line msg = [].
Proof. unfold summary_line. by intros ->. Qed.

Lemma summary_lines_system (l : list Message) :
  Forall (fun msg => kind msg = System) l -> concat (map summary_line l) = [].
Proof.
  induction 1 as [|msg l Hmsg _ IH]; simpl; [done|].
  by rewrite summary_line_system, IH.
Qed.

Lemma summary_lines_skip (before behind : list Message) (msg : Message) :
  summary_line msg = [] ->
  concat (map summary_line (before ++ msg :: behind)) =
  concat (map summary_line (before ++ behind)).
Proof.
  intros H. rewrite !map_app, !concat_app. simpl. by rewrite H.
Qed.

(** C2, as the code has it. When the folded messages are all System
    messages and the summary is a non-empty string, a fold sets the summary
    to "Previous conversation summary: " followed by the old summary; the
    summary becomes [None] only when the old summary is the empty string. *)
Theorem create_summary_only_system (self : ConversationManager) (old : str) :
  preserve_recent self < len (messages self) ->
  Forall (fun msg => kind msg = System)
    (slice_to (messages self) (- preserve_recent self)) ->
  summary self = Some old ->
  (old <> [] ->
     summary (after _create_summary self) =
       Some (lit "Previous conversation summary: " ++ old)) /\
  (old = [] -> summary (after _create_summary self) = None).
Proof.
  intros Hlen Hsys Hold. unfold after.
  rewrite create_summary_fold by done. simpl.
  unfold summary_parts. rewrite summary_lines_system by done.
  rewrite Hold. split.
  - intros Hne. destruct old; [done|]. reflexivity.
  - by intros ->.
Qed.

Lemma create_summary_only_system_witness :
  let self := mkManager 30 900000 1
                [SystemMessage (lit "b"); SystemMessage (lit "c")]
                (Some (lit "User: a")) in
  preserve_recent self < len (messages self) /\
  summary (after _create_summary self) =
    Some (lit "Previous conversation summary: User: a").
Proof.
  intros self.
  assert (preserve_recent self < len (messages self)) as H1 by (vm_compute; congruence).
  split; [exact H1|].
  refine (proj1 (create_summary_only_system self (lit "User: a") H1 _ eq_refl) _).
  - vm_compute. repeat constructor.
  - vm_compute. congruence.
Defined.

(** C2, as it is worded, fails: the folded message is a System message, the
    summary is not [None], and after the fold it still is not. *)
Lemma create_summary_only_system_not_none :
  let self := mkManager 30 900000 1
                [SystemMessage (lit "b"); SystemMessage (lit "c")]
                (Some (lit "User: a")) in
  slice_to (messages self) (- preserve_recent self) = [SystemMessage (lit "b")] /\
  summary self <> None /\
  summary (after _create_summary self) <> None.
Proof. vm_compute. repeat split; congruence. Qed.

(** C10. A folded message that is neither a System, a Human nor an
    Assistant message adds no line to the summary, which is the one built
    from the other folded messages, and it is not among the messages kept. *)
Theorem create_summary_discards_other
  (self : ConversationManager) (before behind : list Message) (msg : Message) :
  preserve_recent self < len (messages self) ->
  slice_to (messages self) (- preserve_recent self) = before ++ msg :: behind ->
  kind msg = Other ->
  let self' := after _create_summary self in
  summary_line msg = [] /\
  messages self = before ++ msg :: behind ++ messages self' /\
  summary self' = join_parts (summary_parts (summary self) (before ++ behind)).
Proof.
  intros Hlen Hfold Hkind self'. subst self'. unfold after.
  rewrite create_summary_fold by done. simpl.
  pose proof (summary_line_other msg Hkind) as Hline.
  split; [done|]. split.
  - rewrite <- (slice_partition (messages self) (- preserve_recent self)) at 1.
    rewrite Hfold. by rewrite <- app_assoc.
  - rewrite Hfold. unfold summary_parts. by rewrite summary_lines_skip.
Qed.

Lemma create_summary_discards_other_witness :
  let tool := mkMessage Other (lit "result") None in
  let self := mkManager 30 900000 1
                [HumanMessage (lit "a") None; tool; HumanMessage (lit "b") None;
                 AIMessage (lit "c") (Some (lit "bot"))] None in
  let self' := after _create_summary self in
  preserve_recent self < len (messages self) /\
  messages self' = [AIMessage (lit "c") (Some (lit "bot"))] /\
  summary self' = Some (lit "User: a" ++ [nl] ++ lit "User: b").
Proof.
  intros tool self self'.
  assert (preserve_recent self < len (messages self)) as H1 by (vm_compute; congruence).
  split; [exact H1|]. split; [reflexivity|].
  exact (proj2 (proj2 (create_summary_discards_other self
           [HumanMessage (lit "a") None] [HumanMessage (lit "b") None] tool
           H1 eq_refl eq_refl))).
Defined.

(** ** Scenarios *)

(** C5, as the code has it. With [max_messages = 3] and
    [preserve_recent = 2], adding the Human messages "Message 0" to
    "Message 4" leaves the two messages "Message 3" and "Message 4", and a
    summary that is not [None] and has three lines. "User: Message 0",
    "User: Message 1" and "User: Message 2" occur in it, one on each line;
    the lines of "Message 1" and "Message 2" start with "User: ", and the
    line of "Message 0" is
    "Previous conversation summary: Previous conversation summary: User: Message 0",
    the summary of the first fold behind the heading of each later fold. *)
Theorem scenario_automatic_summarization :
  let self' :=
    after (add_all [HumanMessage (lit "Message 0") None;
                    HumanMessage (lit "Message 1") None;
                    HumanMessage (lit "Message 2") None;
                    HumanMessage (lit "Message 3") None;
                    HumanMessage (lit "Message 4") None])
      (init 3 MAX_CONTENT_LENGTH 2) in
  len (messages self') = 2 /\
  messages self' =
    [HumanMessage (lit "Message 3") None; HumanMessage (lit "Message 4") None] /\
  exists s,
    summary self' = Some s /\
    s = join [nl]
          [lit "Previous conversation summary: Previous conversation summary: User: Message 0";
           lit "User: Message 1";
           lit "User: Message 2"] /\
    occurs_in (lit "User: Message 0") s /\
    occurs_in (lit "User: Message 1") s /\
    occurs_in (lit "User: Message 2") s /\
    split_on nl s =
      [lit "Previous conversation summary: Previous conversation summary: User: Message 0";
       lit "User: Message 1";
       lit "User: Message 2"] /\
    map (fun line => startswith line (lit "User: ")) (split_on nl s) =
      [false; true; true].
Proof.
  split; [reflexivity|]. split; [reflexivity|].
  eexists. split; [reflexivity|]. split; [reflexivity|].
  split; [apply contains_spec; reflexivity|].
  split; [apply contains_spec; reflexivity|].
  split; [apply contains_spec; reflexivity|].
  split; reflexivity.
Qed.

(** C5, as it is worded, fails: in the summary of this scenario no line that
    starts with "User: " holds "Message 0". *)
Lemma scenario_message_0_not_a_user_line :
  let self' :=
    after (add_all [HumanMessage (lit "Message 0") None;
                    HumanMessage (lit "Message 1") None;
                    HumanMessage (lit "Message 2") None;
                    HumanMessage (lit "Message 3") None;
                    HumanMessage (lit "Message 4") None])
      (init 3 MAX_CONTENT_LENGTH 2) in
  exists s,
    summary self' = Some s /\
    Forall (fun line =>
              startswith line (lit "User: ") = true ->
              contains (lit "Message 0") line = false)
      (split_on nl s).
Proof.
  eexists. split; [reflexivity|].
  vm_compute split_on.
  repeat constructor; vm_compute; congruence.
Qed.

(** C3, on the code. With [max_content_length = 100], a Human message of
    200 characters is stored with its 200 characters: its content is longer
    than the limit but not longer than the 500 characters from which
    [_create_summary_for_content] starts to cut, and no marker is put in. *)
Theorem scenario_long_message :
  let long_content := repeat "X"%char 200 in
  let self' :=
    after (add_message (HumanMessage long_content None))
      (init MAX_MESSAGES_BEFORE_SUMMARY 100 SUMMARY_PRESERVE_RECENT) in
  messages self' = [HumanMessage long_content None] /\
  len long_content = 200 /\
  contains (lit "Content summarized") long_content = false /\
  ~ occurs_in (lit "Content summarized") long_content.
Proof.
  intros long_content self'. split; [reflexivity|]. split; [reflexivity|].
  assert (contains (lit "Content summarized") long_content = false) as H
    by reflexivity.
  split; [exact H|]. intros Hocc. apply contains_spec in Hocc. congruence.
Qed.

(** C8, on the code. The [name] of an Assistant message that was given no
    name is [None]; [getattr(msg, 'name', 'Assistant')] finds the attribute
    and returns [None], and the line of the summary starts with "None: ". *)
Theorem scenario_nameless_assistant :
  let self' :=
    after (add_all [AIMessage (lit "Hello") None; HumanMessage (lit "Thanks") None])
      (init 3 MAX_CONTENT_LENGTH 1) in
  summary self' = Some (lit "None: Hello") /\
  startswith (lit "None: Hello") (lit "Assistant: ") = false.
Proof. split; reflexivity. Qed.

Lemma summary_line_nameless (c : str) :
  summary_line (AIMessage c None) = [lit "None: " ++ shorten c].
Proof. reflexivity. Qed.

(** ** Read accessors *)

(** C9. [get_messages], with either value of [summary_mode], and
    [get_conversation_stats] leave the manager as it was, and called twice
    in a row they return the same result both times. *)
Theorem accessors_are_reads (self : ConversationManager) (summary_mode : bool) :
  (after (get_messages summary_mode) self = self /\
   twice (get_messages summary_mode) self =
     ((result (get_messages summary_mode) self,
       result (get_messages summary_mode) self), self)) /\
  (after get_conversation_stats self = self /\
   twice get_conversation_stats self =
     ((result get_conversation_stats self,
       result get_conversation_stats self), self)) /\
  messages (after (twice (get_messages summary_mode)) self) = messages self /\
  summary (after (twice (get_messages summary_mode)) self) = summary self /\
  messages (after (twice get_conversation_stats) self) = messages self /\
  summary (after (twice get_conversation_stats) self) = summary self.
Proof.
  assert (forall b, get_messages b self = (result (get_messages b) self, self))
    as Hget.
  { intros b. unfold result, get_messages, bind, attr, ret. simpl.
    by destruct (negb b || negb (truthy (summary self))). }
  assert (get_conversation_stats self = (result get_conversation_stats self, self))
    as Hstats by reflexivity.
  assert (forall A (m : M A), m self = (result m self, self) ->
            twice m self = ((result m self, result m self), self)) as Htwice.
  { intros A m Hm. unfold twice, bind, ret. rewrite Hm. simpl. rewrite Hm. done. }
  pose proof (Htwice _ _ (Hget summary_mode)) as H1.
  pose proof (Htwice _ _ Hstats) as H2.
  unfold after at 3 4 5 6. rewrite H1, H2. simpl.
  repeat split; try done.
  unfold after. by rewrite Hget.
Qed.

(** The manager of the example above is the one that three calls of
    [add_message] reach just before the last fold, and the summary they leave
    is the earlier summary behind its heading. *)
Example only_system_fold_reached :
  summary
    (after (add_all [HumanMessage (lit "a") None; SystemMessage (lit "b");
                     SystemMessage (lit "c")])
       (init 30 900000 1))
  = Some (lit "Previous conversation summary: User: a").
Proof. reflexivity. Qed.

(** * Further properties of the module *)

(** ** More facts about slices *)

Section LastSlices.
Context {A : Type}.
Implicit Types (l a b : list A) (k : Z).

(** [l[-k:]] for a positive [k], also when [k] exceeds [len(l)]. *)
Lemma slice_from_neg_drop l k :
  0 < k -> slice_from l (- k) = drop (length l - Z.to_nat k) l.
Proof.
  intros Hk. unfold slice_from, bound, len.
  destruct (- k <? 0) eqn:E; [|lia]. f_equal. lia.
Qed.

(** [l[:-k]] for a positive [k]. *)
Lemma slice_to_neg_take l k :
  0 < k -> slice_to l (- k) = take (length l - Z.to_nat k) l.
Proof.
  intros Hk. unfold slice_to, bound, len.
  destruct (- k <? 0) eqn:E; [|lia]. f_equal. lia.
Qed.

Lemma slice_from_neg_all l k : 0 <= k -> len l <= k -> slice_from l (- k) = l.
Proof.
  intros Hk Hlen. destruct (decide (k = 0)) as [->|Hne].
  - apply slice_from_neg_zero.
  - rewrite slice_from_neg_drop by lia. unfold len in Hlen.
    replace (length l - Z.to_nat k)%nat with 0%nat by lia. apply drop_0.
Qed.

Lemma len_slice_from_neg l k :
  0 < k -> len (slice_from l (- k)) = Z.min k (len l).
Proof.
  intros Hk. rewrite slice_from_neg_drop by done.
  unfold len. rewrite length_drop. lia.
Qed.

(** The last [k] elements of [a ++ b] only depend on the last [k] of [a]. *)
Lemma slice_from_neg_app a b k :
  0 < k -> slice_from (slice_from a (- k) ++ b) (- k) = slice_from (a ++ b) (- k).
Proof.
  intros Hk. rewrite !slice_from_neg_drop by done.
  set (n := Z.to_nat k).
  destruct (decide (length a <= n)%nat) as [Hle|Hgt].
  - replace (length a - n)%nat with 0%nat by lia. by rewrite drop_0.
  - rewrite <- (drop_app_le a b) by lia. rewrite drop_drop. f_equal.
    rewrite length_drop, !length_app. lia.
Qed.

Lemma slice_from_neg_snoc l x k :
  0 < k -> exists front, slice_from (l ++ [x]) (- k) = front ++ [x] /\
                         front `suffix_of` l.
Proof.
  intros Hk. rewrite slice_from_neg_drop by done.
  exists (drop (length l + 1 - Z.to_nat k) l). split.
  - rewrite length_app. simpl. rewrite drop_app_le by lia. done.
  - apply suffix_drop.
Qed.

End LastSlices.

(** ** truncate_content: length and repeated application *)

Lemma len_truncation_notice : len truncation_notice = 25.
Proof. reflexivity. Qed.

Lemma len_truncate_content_long (s : str) (max_length : Z) :
  2 <= max_length -> max_length < len s ->
  len (truncate_content s max_length) = 2 * (max_length `div` 2) + 25.
Proof.
  intros Hm Hlong. rewrite truncate_content_long by done.
  pose proof (half_bounds max_length ltac:(lia)) as Hh.
  pose proof (half_positive max_length Hm) as Hp.
  rewrite !len_app, len_truncation_notice, len_slice_to,
    len_slice_from_last by lia. lia.
Qed.

(** X1. For [max_length >= 2] the result of [truncate_content] has at most
    [max_length + 25] characters (25 is the length of the marker line), and
    for a string longer than [max_length] it has exactly
    [2 * (max_length // 2) + 25]. *)
Theorem truncate_content_length (s : str) (max_length : Z) :
  2 <= max_length ->
  len (truncate_content s max_length) <= max_length + 25 /\
  (max_length < len s ->
     len (truncate_content s max_length) = 2 * (max_length `div` 2) + 25).
Proof.
  intros Hm. pose proof (half_bounds max_length ltac:(lia)) as Hh.
  destruct (decide (len s <= max_length)) as [Hle|Hgt].
  - rewrite truncate_content_short by done. split; lia.
  - rewrite len_truncate_content_long by lia. split; [|done].
    Z.to_euclidean_division_equations. lia.
Qed.

Lemma truncate_content_length_witness :
  2 <= 10 /\
  len (truncate_content (repeat "A"%char 40) 10) <= 10 + 25 /\
  len (truncate_content (repeat "A"%char 40) 10) = 2 * (10 `div` 2) + 25.
Proof.
  assert (2 <= 10) as H by lia. split; [exact H|].
  pose proof (truncate_content_length (repeat "A"%char 40) 10 H) as [H1 H2].
  split; [exact H1|]. apply H2. vm_compute. congruence.
Defined.

(** X2. For [max_length >= 2], truncating a truncated string changes
    nothing: the result of [truncate_content] is a fixed point of it. *)
Theorem truncate_content_idempotent (s : str) (max_length : Z) :
  2 <= max_length ->
  truncate_content (truncate_content s max_length) max_length =
  truncate_content s max_length.
Proof.
  intros Hm. destruct (decide (len s <= max_length)) as [Hle|Hgt].
  - rewrite (truncate_content_short s) by done.
    by apply truncate_content_short.
  - pose proof (half_bounds max_length ltac:(lia)) as Hh.
    pose proof (half_positive max_length Hm) as Hp.
    pose proof (len_truncate_content_long s max_length Hm ltac:(lia)) as Hlen.
    assert (max_length < len (truncate_content s max_length)) as Hlong
      by (Z.to_euclidean_division_equations; lia).
    rewrite (truncate_content_long (truncate_content s max_length)) by done.
    rewrite slice_to_first, slice_from_last by lia.
    set (h := max_length `div` 2) in *.
    assert (truncate_content s max_length =
            slice_to s h ++ truncation_notice ++ slice_from s (- h)) as Hr
      by (apply truncate_content_long; lia).
    assert (length (slice_to s h) = Z.to_nat h) as Hhead.
    { pose proof (len_slice_to s h ltac:(lia) ltac:(lia)). unfold len in *. lia. }
    assert (length (slice_from s (- h)) = Z.to_nat h) as Htail.
    { pose proof (len_slice_from_last s h ltac:(lia) ltac:(lia)).
      unfold len in *. lia. }
    rewrite Hr.
    rewrite take_app_length' by done.
    rewrite (app_assoc (slice_to s h) truncation_notice (slice_from s (- h))).
    rewrite drop_app_length'; [by rewrite <- app_assoc|].
    rewrite !length_app, Htail. lia.
Qed.

Lemma truncate_content_idempotent_witness :
  2 <= 4 /\
  truncate_content (truncate_content (lit "abcdefgh") 4) 4 =
  truncate_content (lit "abcdefgh") 4.
Proof.
  assert (2 <= 4) as H by lia. split; [exact H|].
  exact (truncate_content_idempotent (lit "abcdefgh") 4 H).
Defined.

(** X3. For [max_length] 0 or 1 and a longer string, [truncate_content]
    shortens nothing: the half length is 0, [content[-0:]] is the whole
    string, and the result is the marker line followed by all of [s], 25
    characters longer than [s]. *)
Theorem truncate_content_grows (s : str) (max_length : Z) :
  0 <= max_length < 2 -> max_length < len s ->
  truncate_content s max_length = truncation_notice ++ s /\
  s `suffix_of` truncate_content s max_length /\
  len (truncate_content s max_length) = len s + 25.
Proof.
  intros Hm Hlong. rewrite truncate_content_half_zero by done.
  split; [done|]. split.
  - by exists truncation_notice.
  - by rewrite len_app, len_truncation_notice, Z.add_comm.
Qed.

Lemma truncate_content_grows_witness :
  0 <= 1 < 2 /\ 1 < len (lit "abc") /\
  truncate_content (lit "abc") 1 = truncation_notice ++ lit "abc" /\
  len (truncate_content (lit "abc") 1) = len (lit "abc") + 25.
Proof.
  assert (0 <= 1 < 2) as H1 by lia.
  assert (1 < len (lit "abc")) as H2 by (vm_compute; congruence).
  split; [exact H1|]. split; [exact H2|].
  destruct (truncate_content_grows (lit "abc") 1 H1 H2) as (Heq & _ & Hlen).
  split; [exact Heq | exact Hlen].
Defined.

(** ** _create_summary_for_content: length and repeated application *)

(** X4. The result of [_create_summary_for_content] never has more than 500
    characters, never more than its argument, and summarizing it again
    changes nothing. *)
Theorem create_summary_for_content_bounds (self : ConversationManager) (s : str) :
  len (_create_summary_for_content self s) <= 500 /\
  len (_create_summary_for_content self s) <= len s /\
  _create_summary_for_content self (_create_summary_for_content self s) =
  _create_summary_for_content self s.
Proof.
  destruct (decide (len s <= 500)) as [Hle|Hgt].
  - assert (_create_summary_for_content self s = s) as ->.
    { unfold _create_summary_for_content.
      destruct (len s <=? 500) eqn:E; [done | lia]. }
    repeat split; try lia.
    unfold _create_summary_for_content.
    destruct (len s <=? 500) eqn:E; [done | lia].
  - pose proof (len_summarized self s ltac:(lia)) as Hlen.
    repeat split; try lia.
    unfold _create_summary_for_content at 1.
    destruct (len _ <=? 500) eqn:E; [done | lia].
Qed.

(** ** The message add_message appends *)

Lemma summarize_short (self : ConversationManager) (s : str) :
  len s <= 500 -> _create_summary_for_content self s = s.
Proof.
  intros H. unfold _create_summary_for_content.
  destruct (len s <=? 500) eqn:E; [done | lia].
Qed.

Lemma summarize_twice (self : ConversationManager) (s : str) :
  _create_summary_for_content self (_create_summary_for_content self s) =
  _create_summary_for_content self s.
Proof.
  destruct (decide (len s <= 500)) as [Hle|Hgt].
  - rewrite (summarize_short self s) by done. by apply summarize_short.
  - apply summarize_short. rewrite len_summarized; lia.
Qed.

Lemma len_summarize_le (self : ConversationManager) (s : str) :
  len (_create_summary_for_content self s) <= Z.min (len s) 500.
Proof.
  destruct (decide (len s <= 500)) as [Hle|Hgt].
  - rewrite summarize_short by done. lia.
  - rewrite len_summarized; lia.
Qed.

(** [ingest] reads nothing of the manager but [max_content_length]. *)
Lemma ingest_ext (self self' : ConversationManager) (message : Message) :
  max_content_length self' = max_content_length self ->
  ingest self' message = ingest self message.
Proof. intros H. unfold ingest. by rewrite H. Qed.

(** X5. The message that [add_message] stores in place of [message] passes
    the same one of the tests [isinstance(_, AIMessage)],
    [isinstance(_, HumanMessage)] and [isinstance(_, SystemMessage)] as
    [message], or none of them as [message] (a message of a subclass may be
    rebuilt as a plain [AIMessage], [HumanMessage] or [SystemMessage]); its
    content is never longer than the one of [message]; for a message that
    passes one of the three tests the content has at most
    [max(max_content_length, 500)] characters; a message that is not a
    [SystemMessage] keeps its name; a message that passes none of the tests
    is stored as it is; and storing the stored message again would not
    change it. *)
Theorem ingest_properties (self : ConversationManager) (message : Message) :
  kind (ingest self message) = kind message /\
  len (content (ingest self message)) <= len (content message) /\
  (kind message <> Other ->
     len (content (ingest self message))
       <= Z.max (max_content_length self) 500) /\
  (kind message <> System -> name (ingest self message) = name message) /\
  (kind message = Other -> ingest self message = message) /\
  ingest self (ingest self message) = ingest self message.
Proof.
  pose proof (len_summarize_le self (content message)) as Hle.
  pose proof (summarize_twice self (content message)) as Htwice.
  unfold ingest.
  destruct (len (content message) >? max_content_length self) eqn:E.
  - destruct message as [k c n]. simpl in *.
    destruct k; simpl; rewrite ?E, ?Htwice;
      repeat split; try done; try lia;
      by destruct (len (_create_summary_for_content self c)
                     >? max_content_length self).
  - rewrite E. repeat split; try done; try lia.
Qed.

(** ** The window add_message keeps *)

Lemma before_append_messages (self : ConversationManager) :
  0 < preserve_recent self ->
  let before :=
    if len (messages self) >=? max_messages self
    then after _create_summary self else self in
  preserve_recent before = preserve_recent self /\
  max_content_length before = max_content_length self /\
  (messages before = messages self \/
   messages before = slice_from (messages self) (- preserve_recent self)).
Proof.
  intros Hk before. subst before.
  destruct (len (messages self) >=? max_messages self); [|by auto].
  unfold after.
  destruct (decide (len (messages self) <= preserve_recent self)) as [H|H].
  - rewrite create_summary_noop by done. by auto.
  - rewrite create_summary_fold by lia. simpl. by auto.
Qed.

Lemma add_message_messages (self : ConversationManager) (message : Message) :
  0 < preserve_recent self ->
  messages (after (add_message message) self) =
  slice_from (messages self ++ [ingest self message]) (- preserve_recent self).
Proof.
  intros Hk. rewrite add_message_steps.
  destruct (before_append_messages self Hk) as (Hp & _ & Hmsgs).
  set (before := if len (messages self) >=? max_messages self
                 then after _create_summary self else self) in *.
  set (appended := after (set_messages _) before).
  assert (preserve_recent appended = preserve_recent self) as Hp' by done.
  assert (messages appended = messages before ++ [ingest self message])
    as Happ by done.
  assert (slice_from (messages appended) (- preserve_recent self) =
          slice_from (messages self ++ [ingest self message])
            (- preserve_recent self)) as Hwin.
  { rewrite Happ. destruct Hmsgs as [-> | ->]; [done|].
    by apply slice_from_neg_app. }
  destruct (len (messages appended) >? preserve_recent appended) eqn:E.
  - unfold after. rewrite create_summary_fold by lia.
    change (slice_from (messages appended) (- preserve_recent appended) =
            slice_from (messages self ++ [ingest self message])
              (- preserve_recent self)).
    by rewrite Hp'.
  - rewrite <- Hwin. symmetry. apply slice_from_neg_all; lia.
Qed.

(** X6. For [preserve_recent >= 1], the messages stored when [add_message]
    has returned are the last [preserve_recent] ones of the earlier messages
    followed by the new one; [max_messages] plays no part. The new message
    is always the last one stored. *)
Theorem add_message_window (self : ConversationManager) (message : Message) :
  1 <= preserve_recent self ->
  let self' := after (add_message message) self in
  messages self' =
    slice_from (messages self ++ [ingest self message]) (- preserve_recent self) /\
  len (messages self') = Z.min (preserve_recent self) (len (messages self) + 1) /\
  last (messages self') = Some (ingest self message).
Proof.
  intros Hk self'. subst self'.
  rewrite add_message_messages by lia. split; [done|]. split.
  - rewrite len_slice_from_neg, len_app by lia. reflexivity.
  - destruct (slice_from_neg_snoc (messages self) (ingest self message)
                (preserve_recent self) ltac:(lia)) as (front & -> & _).
    apply last_snoc.
Qed.

Lemma add_message_window_witness :
  let self := mkManager 30 900000 2
                [HumanMessage (lit "a") None; AIMessage (lit "b") None] None in
  1 <= preserve_recent self /\
  messages (after (add_message (HumanMessage (lit "c") None)) self) =
    [AIMessage (lit "b") None; HumanMessage (lit "c") None].
Proof.
  intros self. assert (1 <= preserve_recent self) as H by (simpl; lia).
  split; [exact H|].
  exact (proj1 (add_message_window self (HumanMessage (lit "c") None) H)).
Defined.

Lemma add_all_frame (l : list Message) (self : ConversationManager) :
  let self' := after (add_all l) self in
  max_messages self' = max_messages self /\
  max_content_length self' = max_content_length self /\
  preserve_recent self' = preserve_recent self.
Proof.
  revert self. induction l as [|message l IH]; intros self; [done|].
  destruct (add_message_frame self message) as (Hm & Hc & Hp & _).
  destruct (IH (after (add_message message) self)) as (Hm' & Hc' & Hp').
  change (after (add_all (message :: l)) self)
    with (after (add_all l) (after (add_message message) self)).
  simpl. rewrite Hm', Hc', Hp'. done.
Qed.

(** X7. For [preserve_recent >= 1] and a manager that stores at most
    [preserve_recent] messages (a new one stores none), adding the messages
    of [l] one after the other leaves the last [preserve_recent] ones of the
    stored messages followed by the messages of [l] as they are ingested. *)
Theorem add_all_window (l : list Message) (self : ConversationManager) :
  1 <= preserve_recent self ->
  len (messages self) <= preserve_recent self ->
  messages (after (add_all l) self) =
  slice_from (messages self ++ map (ingest self) l) (- preserve_recent self).
Proof.
  revert self. induction l as [|message l IH]; intros self Hk Hlen.
  - change (after (add_all []) self) with self.
    change (map (ingest self) []) with (@nil Message).
    rewrite app_nil_r. symmetry. apply slice_from_neg_all; lia.
  - change (after (add_all (message :: l)) self)
      with (after (add_all l) (after (add_message message) self)).
    destruct (add_message_frame self message) as (_ & Hc & Hp & _).
    pose proof (add_message_messages self message ltac:(lia)) as Hmsgs.
    rewrite IH.
    + rewrite Hp, Hmsgs.
      rewrite (map_ext _ (ingest self)) by (intros; by apply ingest_ext).
      rewrite slice_from_neg_app by lia.
      by rewrite <- app_assoc.
    + by rewrite Hp.
    + rewrite Hp, Hmsgs, len_slice_from_neg by lia. lia.
Qed.

Lemma add_all_window_witness :
  let self := init 3 900000 2 in
  let l := [HumanMessage (lit "a") None; AIMessage (lit "b") None;
            HumanMessage (lit "c") None] in
  1 <= preserve_recent self /\
  len (messages self) <= preserve_recent self /\
  messages (after (add_all l) self) =
    [AIMessage (lit "b") None; HumanMessage (lit "c") None].
Proof.
  intros self l.
  assert (1 <= preserve_recent self) as H1 by (simpl; lia).
  assert (len (messages self) <= preserve_recent self) as H2
    by (vm_compute; congruence).
  split; [exact H1|]. split; [exact H2|].
  exact (add_all_window l self H1 H2).
Defined.

(** ** max_messages *)

Lemma create_summary_same (a b : ConversationManager) :
  same_conversation a b ->
  same_conversation (after _create_summary a) (after _create_summary b).
Proof.
  intros (Hc & Hp & Hm & Hs). unfold after.
  destruct (decide (len (messages a) <= preserve_recent a)) as [H|H].
  - rewrite (create_summary_noop a), (create_summary_noop b) by congruence.
    done.
  - rewrite (create_summary_fold a), (create_summary_fold b)
      by (rewrite <- ?Hp, <- ?Hm; lia).
    unfold same_conversation. simpl. by rewrite Hc, Hp, Hm, Hs.
Qed.

Lemma add_message_same (a b : ConversationManager) (message : Message) :
  same_conversation a b ->
  len (messages a) <= preserve_recent a ->
  same_conversation (after (add_message message) a) (after (add_message message) b).
Proof.
  intros Hab Hlen. pose proof Hab as (Hc & Hp & Hm & Hs).
  rewrite !add_message_steps.
  assert ((if len (messages a) >=? max_messages a
           then after _create_summary a else a) = a) as ->.
  { destruct (len (messages a) >=? max_messages a); [|done].
    unfold after. by rewrite create_summary_noop. }
  assert ((if len (messages b) >=? max_messages b
           then after _create_summary b else b) = b) as ->.
  { destruct (len (messages b) >=? max_messages b); [|done].
    unfold after. rewrite create_summary_noop; [done | congruence]. }
  rewrite (ingest_ext a b) by done.
  set (a' := after (set_messages _) a). set (b' := after (set_messages _) b).
  assert (same_conversation a' b') as Hab'.
  { unfold same_conversation. subst a' b'. simpl. by rewrite Hc, Hp, Hm, Hs. }
  destruct Hab' as (Hc' & Hp' & Hm' & Hs').
  rewrite <- Hp', <- Hm'.
  destruct (len (messages a') >? preserve_recent a').
  - by apply create_summary_same.
  - done.
Qed.

(** X8. [max_messages] has no effect on a conversation. For
    [preserve_recent >= 1], two managers that store the same messages, at
    most [preserve_recent] of them, with the same summary and the same other
    limits, still agree on their messages and their summary after any
    sequence of [add_message], whatever their values of [max_messages]. *)
Theorem add_all_ignores_max_messages
  (l : list Message) (a b : ConversationManager) :
  same_conversation a b ->
  1 <= preserve_recent a ->
  len (messages a) <= preserve_recent a ->
  same_conversation (after (add_all l) a) (after (add_all l) b).
Proof.
  revert a b. induction l as [|message l IH]; intros a b Hab Hk Hlen; [done|].
  change (same_conversation
            (after (add_all l) (after (add_message message) a))
            (after (add_all l) (after (add_message message) b))).
  destruct (add_message_frame a message) as (_ & _ & Hp & _).
  apply IH.
  - by apply add_message_same.
  - by rewrite Hp.
  - rewrite Hp, add_message_messages, len_slice_from_neg by lia. lia.
Qed.

Lemma add_all_ignores_max_messages_witness :
  let l := [HumanMessage (lit "a") None; AIMessage (lit "b") None;
            HumanMessage (lit "c") None] in
  let a := init 1 900000 2 in
  let b := init 30 900000 2 in
  same_conversation a b /\
  messages (after (add_all l) a) = messages (after (add_all l) b) /\
  summary (after (add_all l) a) = summary (after (add_all l) b).
Proof.
  intros l a b.
  assert (same_conversation a b) as H1 by (repeat split).
  assert (1 <= preserve_recent a) as H2 by (simpl; lia).
  assert (len (messages a) <= preserve_recent a) as H3 by (vm_compute; congruence).
  split; [exact H1|].
  exact (proj2 (proj2 (add_all_ignores_max_messages l a b H1 H2 H3))).
Defined.

(** ** preserve_recent = 0 *)

Lemma create_summary_keep_zero (self : ConversationManager) :
  preserve_recent self = 0 ->
  let self' := after _create_summary self in
  messages self' = messages self /\
  preserve_recent self' = 0 /\
  (summary self = None -> summary self' = None).
Proof.
  intros Hz. unfold after.
  destruct (decide (len (messages self) <= preserve_recent self)) as [H|H].
  - by rewrite create_summary_noop.
  - rewrite create_summary_fold by lia. simpl. rewrite Hz.
    rewrite slice_from_neg_zero, slice_to_neg_zero.
    repeat split. by intros ->.
Qed.

(** X9. With [preserve_recent = 0] nothing is ever folded away:
    [messages[-0:]] is the whole list, so [add_message] only appends, the
    list grows by one message at every call, and a summary that is [None]
    stays [None]. *)
Theorem add_message_keep_zero (self : ConversationManager) (message : Message) :
  preserve_recent self = 0 ->
  let self' := after (add_message message) self in
  messages self' = messages self ++ [ingest self message] /\
  len (messages self') = len (messages self) + 1 /\
  (summary self = None -> summary self' = None).
Proof.
  intros Hz self'. subst self'. rewrite add_message_steps.
  set (before := if len (messages self) >=? max_messages self
                 then after _create_summary self else self).
  assert (messages before = messages self /\ preserve_recent before = 0 /\
          (summary self = None -> summary before = None)) as (Hm & Hp & Hs).
  { subst before. destruct (len (messages self) >=? max_messages self).
    - by apply create_summary_keep_zero.
    - done. }
  set (appended := after (set_messages _) before).
  assert (messages appended = messages self ++ [ingest self message] /\
          preserve_recent appended = 0 /\
          (summary self = None -> summary appended = None)) as (Hm' & Hp' & Hs').
  { subst appended. simpl. by rewrite Hm. }
  assert (messages (if len (messages appended) >? preserve_recent appended
                    then after _create_summary appended else appended)
            = messages self ++ [ingest self message] /\
          (summary self = None ->
           summary (if len (messages appended) >? preserve_recent appended
                    then after _create_summary appended else appended) = None))
    as [H1 H2].
  { destruct (len (messages appended) >? preserve_recent appended).
    - destruct (create_summary_keep_zero appended Hp') as (Hm2 & _ & Hs2).
      split; [by rewrite Hm2 | by auto].
    - done. }
  rewrite H1. split; [done|]. split; [|done].
  rewrite len_app. reflexivity.
Qed.

Lemma add_message_keep_zero_witness :
  let self := mkManager 2 900000 0
                [HumanMessage (lit "a") None; HumanMessage (lit "b") None;
                 HumanMessage (lit "c") None] None in
  preserve_recent self = 0 /\
  len (messages (after (add_message (HumanMessage (lit "d") None)) self)) = 4 /\
  summary (after (add_message (HumanMessage (lit "d") None)) self) = None.
Proof.
  intros self. assert (preserve_recent self = 0) as H by reflexivity.
  split; [exact H|].
  destruct (add_message_keep_zero self (HumanMessage (lit "d") None) H)
    as (_ & Hlen & Hsum).
  split; [exact Hlen | exact (Hsum eq_refl)].
Defined.

(** ** Folding twice *)

(** X10. For [preserve_recent >= 1] a second fold right after a fold changes
    nothing. *)
Theorem create_summary_idempotent (self : ConversationManager) :
  1 <= preserve_recent self ->
  after _create_summary (after _create_summary self) = after _create_summary self.
Proof.
  intros Hk. pose proof (create_summary_len self Hk) as Hlen.
  destruct (create_summary_frame self) as (_ & _ & Hp & _).
  unfold after at 1. rewrite create_summary_noop; [done|].
  by rewrite Hp.
Qed.

Lemma create_summary_idempotent_witness :
  let self := mkManager 30 900000 1
                [HumanMessage (lit "a") None; HumanMessage (lit "b") None]
                (Some (lit "old")) in
  1 <= preserve_recent self /\
  summary (after _create_summary (after _create_summary self)) =
    Some (lit "Previous conversation summary: old" ++ [nl] ++ lit "User: a").
Proof.
  intros self. assert (1 <= preserve_recent self) as H by (simpl; lia).
  split; [exact H|].
  rewrite (create_summary_idempotent self H). reflexivity.
Defined.

(** ** What a fold writes into the summary *)

Lemma join_head_prefix (sep p : str) (rest : list str) :
  p `prefix_of` join sep (p :: rest).
Proof.
  destruct rest as [|q rest]; simpl.
  - done.
  - by eexists.
Qed.

Lemma occurs_in_refl (s : str) : occurs_in s s.
Proof. exists [], []. by rewrite app_nil_r. Qed.

Lemma occurs_in_join (sep line : str) (parts : list str) :
  line ∈ parts -> occurs_in line (join sep parts).
Proof.
  induction parts as [|p rest IH]; intros Hin.
  - by apply elem_of_nil in Hin.
  - apply elem_of_cons in Hin as [-> | Hin].
    + destruct (join_head_prefix sep p rest) as [k ->].
      exists [], k. done.
    + destruct rest as [|q rest]; [by apply elem_of_nil in Hin|].
      destruct (IH Hin) as (a & b & Hab).
      change (join sep (p :: q :: rest)) with (p ++ sep ++ join sep (q :: rest)).
      rewrite Hab. exists (p ++ sep ++ a), b. by rewrite <- !app_assoc.
Qed.


Lemma join_parts_occurs (parts : list str) (line : str) :
  line ∈ parts ->
  exists s, join_parts parts = Some s /\ occurs_in line s.
Proof.
  intros Hin. destruct parts as [|p rest]; [by apply elem_of_nil in Hin|].
  eexists. split; [reflexivity|]. by apply occurs_in_join.
Qed.



(** ** The summary is never the empty string, and is never lost *)

Lemma summary_parts_head_not_empty (old : option str) (l : list Message) :
  Forall (fun p => p <> []) (summary_parts old l).
Proof.
  unfold summary_parts. apply Forall_app. split.
  - destruct (truthy old); repeat constructor. discriminate.
  - induction l as [|msg l IH]; simpl; [constructor|].
    apply Forall_app. split; [|done].
    unfold summary_line. destruct (kind msg); repeat constructor.
    + discriminate.
    + destruct (format (name msg)); discriminate.
Qed.

Lemma join_parts_not_empty (old : option str) (l : list Message) :
  join_parts (summary_parts old l) <> Some [].
Proof.
  pose proof (summary_parts_head_not_empty old l) as Hall.
  destruct (summary_parts old l) as [|p rest]; [discriminate|].
  apply Forall_cons_1 in Hall as [Hp _]. simpl.
  destruct (join_head_prefix [nl] p rest) as [k Hk].
  intros [= Hjoin]. change (join [nl] (p :: rest) = []) in Hjoin.
  rewrite Hk in Hjoin. by apply app_nil in Hjoin as [? _].
Qed.

Lemma create_summary_not_empty (self : ConversationManager) :
  summary self <> Some [] -> summary (after _create_summary self) <> Some [].
Proof.
  intros Hne. unfold after.
  destruct (decide (len (messages self) <= preserve_recent self)) as [H|H].
  - by rewrite create_summary_noop.
  - rewrite create_summary_fold by lia. simpl. apply join_parts_not_empty.
Qed.

Lemma create_summary_keeps (self : ConversationManager) (old : str) :
  summary self = Some old -> old <> [] ->
  exists s, summary (after _create_summary self) = Some s /\
            occurs_in old s /\ s <> [].
Proof.
  intros Hold Hne. unfold after.
  destruct (decide (len (messages self) <= preserve_recent self)) as [H|H].
  - rewrite create_summary_noop by done. exists old.
    split; [done|]. split; [apply occurs_in_refl | done].
  - rewrite create_summary_fold by lia. simpl.
    pose proof (join_parts_not_empty (summary self)
                  (slice_to (messages self) (- preserve_recent self))) as Hnot.
    destruct (join_parts_occurs
                (summary_parts (summary self)
                   (slice_to (messages self) (- preserve_recent self)))
                (lit "Previous conversation summary: " ++ old))
      as (s & Hs & Hocc).
    { unfold summary_parts. rewrite Hold. destruct old; [done|].
      apply elem_of_app. left. apply list_elem_of_here. }
    exists s. split; [done|]. split.
    + eapply occurs_in_widen; [|exact Hocc].
      exists (lit "Previous conversation summary: "), []. by rewrite app_nil_r.
    + intros ->. by rewrite Hs in Hnot.
Qed.

(** X12. [add_message] never makes the summary the empty string: when the
    summary was [None] or a non-empty string before the call it is so after
    it, and then [get_conversation_stats] reports [has_summary] exactly when
    it reports a positive [summary_length]. *)
Theorem add_message_summary_not_empty
  (self : ConversationManager) (message : Message) :
  summary self <> Some [] ->
  let self' := after (add_message message) self in
  summary self' <> Some [] /\
  (has_summary (result get_conversation_stats self') = true <->
   0 < summary_length (result get_conversation_stats self')).
Proof.
  intros Hne self'.
  assert (summary self' <> Some []) as Hne'.
  { subst self'. rewrite add_message_steps.
    set (before := if len (messages self) >=? max_messages self
                   then after _create_summary self else self).
    assert (summary before <> Some []) as Hb.
    { subst before. destruct (len (messages self) >=? max_messages self).
      - by apply create_summary_not_empty.
      - done. }
    set (appended := after (set_messages _) before).
    destruct (len (messages appended) >? preserve_recent appended).
    - by apply create_summary_not_empty.
    - done. }
  split; [done|].
  unfold result, get_conversation_stats, bind, attr, ret. simpl.
  destruct (summary self') as [[|c s]|]; simpl.
  - done.
  - unfold len. simpl. split; [lia | done].
  - split; [done | lia].
Qed.

Lemma add_message_summary_not_empty_witness :
  let self := init 3 900000 1 in
  summary self <> Some [] /\
  summary (after (add_message (HumanMessage (lit "a") None)) self) <> Some [].
Proof.
  intros self. assert (summary self <> Some []) as H by (simpl; congruence).
  split; [exact H|].
  exact (proj1 (add_message_summary_not_empty self
                  (HumanMessage (lit "a") None) H)).
Defined.

(** X13. [add_message] never loses the summary: when the summary is a
    non-empty string before the call, there is a non-empty summary after
    it, and the old summary occurs in it. *)
Theorem add_message_keeps_summary
  (self : ConversationManager) (message : Message) (old : str) :
  summary self = Some old -> old <> [] ->
  exists s, summary (after (add_message message) self) = Some s /\
            occurs_in old s /\ s <> [].
Proof.
  intros Hold Hne. rewrite add_message_steps.
  set (before := if len (messages self) >=? max_messages self
                 then after _create_summary self else self).
  assert (exists s1, summary before = Some s1 /\ occurs_in old s1 /\ s1 <> [])
    as (s1 & Hs1 & Hocc1 & Hne1).
  { subst before. destruct (len (messages self) >=? max_messages self).
    - by apply create_summary_keeps.
    - exists old. split; [done|]. split; [apply occurs_in_refl | done]. }
  set (appended := after (set_messages _) before).
  assert (summary appended = Some s1) as Happ by done.
  destruct (len (messages appended) >? preserve_recent appended).
  - destruct (create_summary_keeps appended s1 Happ Hne1) as (s2 & Hs2 & Hocc2 & Hne2).
    exists s2. split; [done|]. split; [|done].
    by eapply occurs_in_widen.
  - by exists s1.
Qed.

Lemma add_message_keeps_summary_witness :
  let self := mkManager 30 900000 1 [SystemMessage (lit "b")]
                (Some (lit "User: a")) in
  summary self = Some (lit "User: a") /\
  exists s, summary (after (add_message (SystemMessage (lit "c"))) self) = Some s /\
            occurs_in (lit "User: a") s.
Proof.
  intros self. assert (summary self = Some (lit "User: a")) as H by reflexivity.
  split; [exact H|].
  destruct (add_message_keeps_summary self (SystemMessage (lit "c"))
              (lit "User: a") H ltac:(vm_compute; congruence))
    as (s & Hs & Hocc & _).
  exists s. split; [exact Hs | exact Hocc].
Defined.

(** X14. Every fold that removes messages makes a non-empty summary longer
    by at least 31 characters: the new summary starts with
    "Previous conversation summary: " followed by the whole old summary.
    Nothing bounds the length of the summary. *)
Theorem create_summary_grows (self : ConversationManager) (old : str) :
  preserve_recent self < len (messages self) ->
  summary self = Some old -> old <> [] ->
  exists s,
    summary (after _create_summary self) = Some s /\
    (lit "Previous conversation summary: " ++ old) `prefix_of` s /\
    len old + 31 <= len s.
Proof.
  intros Hlen Hold Hne. unfold after.
  rewrite create_summary_fold by done. simpl.
  unfold summary_parts. rewrite Hold.
  destruct old as [|c old]; [done|]. simpl truthy. cbv iota.
  eexists. split; [reflexivity|].
  pose proof (join_head_prefix [nl]
                (lit "Previous conversation summary: " ++ format (Some (c :: old)))
                (concat (map summary_line
                   (slice_to (messages self) (- preserve_recent self)))))
    as Hpre.
  split; [exact Hpre|].
  apply prefix_length in Hpre. rewrite length_app in Hpre.
  change (length (lit "Previous conversation summary: ")) with 31%nat in Hpre.
  set (s := join _ _) in Hpre.
  change (Z.of_nat (length (c :: old)) + 31 <= Z.of_nat (length s)).
  simpl format in Hpre. lia.
Qed.

Lemma create_summary_grows_witness :
  let self := mkManager 30 900000 1
                [SystemMessage (lit "b"); SystemMessage (lit "c")]
                (Some (lit "User: a")) in
  preserve_recent self < len (messages self) /\
  exists s, summary (after _create_summary self) = Some s /\
            len (lit "User: a") + 31 <= len s.
Proof.
  intros self.
  assert (preserve_recent self < len (messages self)) as H1
    by (vm_compute; congruence).
  split; [exact H1|].
  destruct (create_summary_grows self (lit "User: a") H1 eq_refl
              ltac:(vm_compute; congruence)) as (s & Hs & _ & Hlen).
  exists s. split; [exact Hs | exact Hlen].
Defined.

(** ** The lines of the summary *)

Lemma len_shorten (c : str) :
  (len c <= 200 -> shorten c = c) /\
  (200 < len c -> shorten c = first_chars 200 c ++ lit "..." /\
                  len (shorten c) = 203).
Proof.
  unfold shorten. split; intros H.
  - destruct (len c >? 200) eqn:E; [lia | done].
  - destruct (len c >? 200) eqn:E; [|lia].
    rewrite len_app, len_slice_to by lia.
    by rewrite slice_to_first by lia.
Qed.

(** X15. A line of the summary is short whatever the length of the message:
    at most 209 characters for a Human message, and at most 205 characters
    more than the printed name for an Assistant message. A content of more
    than 200 characters is cut to its first 200 characters and "...". *)
Theorem summary_line_length (msg : Message) (line : str) :
  line ∈ summary_line msg ->
  (kind msg = Human /\ len line <= 209 /\
   lit "User: " `prefix_of` line) \/
  (kind msg = AI /\ len line <= len (format (name msg)) + 205 /\
   (format (name msg) ++ lit ": ") `prefix_of` line).
Proof.
  intros Hin.
  assert (len (shorten (content msg)) <= 203) as Hshort.
  { destruct (len_shorten (content msg)) as [H1 H2].
    destruct (decide (len (content msg) <= 200)) as [H|H].
    - rewrite H1 by done. lia.
    - destruct H2 as [_ ->]; lia. }
  unfold summary_line in Hin. destruct (kind msg) eqn:Hkind.
  - by apply elem_of_nil in Hin.
  - apply list_elem_of_singleton in Hin as ->. left.
    split; [done|]. split; [|by eexists].
    rewrite len_app. change (len (lit "User: ")) with 6. lia.
  - apply list_elem_of_singleton in Hin as ->. right.
    split; [done|]. split; [|exists (shorten (content msg)); by rewrite <- app_assoc].
    rewrite !len_app. change (len (lit ": ")) with 2. lia.
  - by apply elem_of_nil in Hin.
Qed.

Lemma summary_line_length_witness :
  let msg := HumanMessage (repeat "X"%char 300) None in
  let line := lit "User: " ++ repeat "X"%char 200 ++ lit "..." in
  line ∈ summary_line msg /\ len line <= 209.
Proof.
  intros msg line.
  assert (line ∈ summary_line msg) as H by (vm_compute; apply list_elem_of_here).
  split; [exact H|].
  destruct (summary_line_length msg line H) as [(_ & Hlen & _) | (Hk & _)].
  - exact Hlen.
  - discriminate Hk.
Defined.

(** ** get_messages in summary mode *)

(** X16. [get_messages] returns the stored messages, in their order. In
    summary mode, and when the summary is a non-empty string, they come
    after one System message whose content is "Conversation Summary:", a
    newline and the summary; a summary that is [None] or the empty string
    adds no message. *)
Theorem get_messages_summary_mode (self : ConversationManager) :
  result (get_messages false) self = messages self /\
  (forall s, summary self = Some s -> s <> [] ->
     result (get_messages true) self =
       SystemMessage (lit "Conversation Summary:" ++ [nl] ++ s) :: messages self) /\
  (summary self = None \/ summary self = Some [] ->
     result (get_messages true) self = messages self) /\
  messages self `suffix_of` result (get_messages true) self /\
  len (result (get_messages true) self) =
    len (messages self) + (if truthy (summary self) then 1 else 0).
Proof.
  unfold result, get_messages, bind, attr, ret. simpl.
  split; [done|]. split; [|split; [|split]].
  - intros s -> Hne. by destruct s.
  - by intros [-> | ->].
  - destruct (truthy (summary self)); simpl.
    + by apply suffix_cons_r.
    + done.
  - destruct (truthy (summary self)); simpl; unfold len; simpl; lia.
Qed.

Lemma get_messages_summary_mode_witness :
  let self := mkManager 30 900000 5 [HumanMessage (lit "b") None]
                (Some (lit "User: a")) in
  result (get_messages true) self =
    [SystemMessage (lit "Conversation Summary:" ++ [nl] ++ lit "User: a");
     HumanMessage (lit "b") None] /\
  result (get_messages true)
    (mkManager 30 900000 5 [HumanMessage (lit "b") None] (Some [])) =
    [HumanMessage (lit "b") None].
Proof.
  intros self. split.
  - exact (proj1 (proj2 (get_messages_summary_mode self)) (lit "User: a")
             eq_refl ltac:(vm_compute; congruence)).
  - exact (proj1 (proj2 (proj2 (get_messages_summary_mode
             (mkManager 30 900000 5 [HumanMessage (lit "b") None] (Some [])))))
             (or_intror eq_refl)).
Defined.

(** ** get_recent_messages *)

(** X17. [get_recent_messages(count)] changes nothing and returns the last
    [count] stored messages: a suffix of [messages] of length
    [min(count, len(messages))], all of them when [count >= len(messages)],
    and none when [count <= 0] (the test [count > 0] keeps
    [messages[-0:]] from returning everything). *)
Theorem get_recent_messages_bounds (self : ConversationManager) (count : Z) :
  let recent := result (get_recent_messages count) self in
  after (get_recent_messages count) self = self /\
  recent `suffix_of` messages self /\
  len recent = Z.max 0 (Z.min count (len (messages self))) /\
  (len (messages self) <= count -> recent = messages self) /\
  (count <= 0 -> recent = []).
Proof.
  unfold result, after, get_recent_messages, bind, attr, ret. simpl.
  pose proof (len_nonneg (messages self)) as Hpos.
  split; [done|].
  destruct (count >? 0) eqn:E.
  - split; [apply slice_from_suffix|]. split; [|split].
    + rewrite len_slice_from_neg by lia. lia.
    + intros Hall. apply slice_from_neg_all; lia.
    + lia.
  - split; [apply suffix_nil|]. split; [|split].
    + unfold len at 1. simpl. lia.
    + intros Hall. symmetry. apply nil_length_inv. unfold len in *. lia.
    + done.
Qed.

(** ** clear *)

(** X18. [clear] after any sequence of [add_message] leaves the manager as
    a new one with the same three limits, and a second [clear] changes
    nothing. *)
Theorem clear_resets (l : list Message) (self : ConversationManager) :
  after clear (after (add_all l) self) =
    init (max_messages self) (max_content_length self) (preserve_recent self) /\
  after clear (after clear self) = after clear self.
Proof.
  destruct (add_all_frame l self) as (Hm & Hc & Hp).
  split; [|done].
  unfold after at 1, clear, bind, set_messages, set_summary, init. simpl.
  by rewrite Hm, Hc, Hp.
Qed.

(** ** get_conversation_stats *)

Lemma sum_content_bound (l : list Message) (limit : Z) :
  Forall (fun msg => len (content msg) <= limit) l ->
  0 <= sum (map (fun msg => len (content msg)) l) <= len l * limit.
Proof.
  induction 1 as [|msg l Hmsg _ IH]; [done|].
  pose proof (len_nonneg (content msg)) as Hpos.
  change (sum (map (fun msg => len (content msg)) (msg :: l)))
    with (len (content msg) + sum (map (fun msg => len (content msg)) l)).
  replace (len (msg :: l)) with (len l + 1) by (unfold len; simpl; lia).
  lia.
Qed.

(** X19. What [get_conversation_stats] reports after [add_message]. For
    [preserve_recent >= 1], [max_content_length >= 500], stored messages
    within the limit and a System, Human or Assistant message:
    [total_messages] is at most [preserve_recent], and
    [total_content_length] is at most
    [preserve_recent * max_content_length]. *)
Theorem stats_after_add_message (self : ConversationManager) (message : Message) :
  1 <= preserve_recent self ->
  500 <= max_content_length self ->
  kind message <> Other ->
  within_limit self ->
  let stats := result get_conversation_stats (after (add_message message) self) in
  total_messages stats = len (messages (after (add_message message) self)) /\
  total_messages stats <= preserve_recent self /\
  0 <= total_content_length stats <= preserve_recent self * max_content_length self /\
  max_messages_threshold stats = max_messages self /\
  preserve_recent_count stats = preserve_recent self.
Proof.
  intros Hk Hlim Hkind Hold stats. subst stats.
  destruct (add_message_frame self message) as (Hm & Hc & Hp & [k Hsuf]).
  pose proof (add_message_messages self message ltac:(lia)) as Hwin.
  set (self' := after (add_message message) self) in *.
  assert (len (messages self') <= preserve_recent self) as Hlen
    by (rewrite Hwin, len_slice_from_neg by lia; lia).
  assert (Forall (fun msg => len (content msg) <= max_content_length self)
            (messages self')) as Hall.
  { assert (Forall (fun msg => len (content msg) <= max_content_length self)
              (messages self ++ [ingest self message])) as H.
    { apply Forall_app. split; [done|]. apply Forall_singleton.
      by apply ingest_within_limit. }
    rewrite Hsuf in H. by apply Forall_app in H as [_ ?]. }
  pose proof (sum_content_bound _ _ Hall) as Hsum.
  pose proof (len_nonneg (messages self')) as Hpos.
  unfold result, get_conversation_stats, bind, attr, ret. simpl.
  repeat split; try done; try lia. nia.
Qed.

Lemma stats_after_add_message_witness :
  let self := init 30 500 2 in
  let message := HumanMessage (repeat "X"%char 600) None in
  let stats := result get_conversation_stats (after (add_message message) self) in
  1 <= preserve_recent self /\
  within_limit self /\
  total_messages stats <= 2 /\
  total_content_length stats <= 2 * 500.
Proof.
  intros self message stats.
  assert (1 <= preserve_recent self) as H1 by (simpl; lia).
  assert (500 <= max_content_length self) as H2 by (simpl; lia).
  assert (kind message <> Other) as H3 by (simpl; congruence).
  assert (within_limit self) as H4 by apply Forall_nil_2.
  destruct (stats_after_add_message self message H1 H2 H3 H4)
    as (_ & Hn & [_ Hc] & _).
  split; [exact H1|]. split; [exact H4|]. split; [exact Hn | exact Hc].
Defined.

(** ** When a fold leaves no summary *)

Lemma summary_lines_nil (l : list Message) :
  concat (map summary_line l) = [] <->
  Forall (fun msg => kind msg = System \/ kind msg = Other) l.
Proof.
  induction l as [|msg l IH]; simpl.
  - split; [constructor | done].
  - split.
    + intros H. apply app_nil in H as [Hmsg Hl]. constructor; [|by apply IH].
      unfold summary_line in Hmsg. destruct (kind msg); auto; discriminate.
    + intros H. apply Forall_cons_1 in H as [Hmsg Hl].
      apply IH in Hl as ->. rewrite app_nil_r.
      unfold summary_line. by destruct Hmsg as [-> | ->].
Qed.

(** X20. A fold that removes messages leaves the summary [None] exactly
    when there was no summary before (it was [None] or the empty string)
    and every removed message is a System message or a message of another
    class than Human and Assistant. *)
Theorem create_summary_none_iff (self : ConversationManager) :
  preserve_recent self < len (messages self) ->
  (summary (after _create_summary self) = None <->
   truthy (summary self) = false /\
   Forall (fun msg => kind msg = System \/ kind msg = Other)
     (slice_to (messages self) (- preserve_recent self))).
Proof.
  intros Hlen. unfold after. rewrite create_summary_fold by done. simpl.
  rewrite <- summary_lines_nil. unfold summary_parts.
  destruct (truthy (summary self)); simpl.
  - split; [discriminate | intros [? _]; discriminate].
  - destruct (concat _) eqn:E; simpl.
    + by split.
    + split; [discriminate | intros [_ ?]; discriminate].
Qed.

Lemma create_summary_none_iff_witness :
  let self := mkManager 30 900000 1
                [SystemMessage (lit "rules"); mkMessage Other (lit "result") None;
                 HumanMessage (lit "hello") None] None in
  preserve_recent self < len (messages self) /\
  summary (after _create_summary self) = None.
Proof.
  intros self.
  assert (preserve_recent self < len (messages self)) as H
    by (vm_compute; congruence).
  split; [exact H|].
  apply (create_summary_none_iff self H). split; [reflexivity|].
  vm_compute. constructor; [by left|]. constructor; [by right|]. constructor.
Defined.

(** ** A negative preserve_recent *)

(** X21. With a negative [preserve_recent] a manager that stores no message
    never stores one: [add_message] appends the message and the fold that
    follows removes it at once ([messages[-preserve_recent:]] then drops
    the first messages instead of keeping the last ones). *)
Theorem add_message_negative_keep (self : ConversationManager) (message : Message) :
  preserve_recent self < 0 ->
  messages self = [] ->
  messages (after (add_message message) self) = [].
Proof.
  intros Hneg Hnil. rewrite add_message_steps.
  set (before := if len (messages self) >=? max_messages self
                 then after _create_summary self else self).
  assert (messages before = [] /\ preserve_recent before = preserve_recent self)
    as [Hm Hp].
  { subst before. destruct (len (messages self) >=? max_messages self); [|done].
    destruct (create_summary_frame self) as (_ & _ & Hp & Hs).
    split; [|done]. rewrite Hnil in Hs. by apply suffix_nil_inv in Hs. }
  set (appended := after (set_messages _) before).
  assert (messages appended = [ingest self message]) as Happ
    by (subst appended; simpl; by rewrite Hm).
  assert (preserve_recent appended = preserve_recent self) as Hp' by done.
  destruct (len (messages appended) >? preserve_recent appended) eqn:E.
  - unfold after. rewrite create_summary_fold by lia.
    change (slice_from (messages appended) (- preserve_recent appended) = []).
    rewrite Happ, Hp'. unfold slice_from, bound, len. simpl length.
    destruct (- preserve_recent self <? 0) eqn:E'; [lia|].
    replace (Z.to_nat (Z.min (- preserve_recent self) (Z.of_nat 1)))
      with 1%nat by lia.
    done.
  - exfalso. rewrite Happ, Hp' in E. unfold len in E. simpl length in E.
    change (Z.of_nat 1) with 1 in E. lia.
Qed.

Lemma add_message_negative_keep_witness :
  let self := init 30 900000 (-1) in
  preserve_recent self < 0 /\
  messages (after (add_message (HumanMessage (lit "a") None)) self) = [] /\
  summary (after (add_message (HumanMessage (lit "a") None)) self) =
    Some (lit "User: a").
Proof.
  intros self. assert (preserve_recent self < 0) as H by (simpl; lia).
  split; [exact H|]. split; [|reflexivity].
  exact (add_message_negative_keep self (HumanMessage (lit "a") None) H eq_refl).
Defined.

(** ** Instances of the properties above *)

Lemma ingest_properties_witness :
  let self := init 30 500 5 in
  let message := AIMessage (repeat "X"%char 600) (Some (lit "bot")) in
  kind message <> Other /\
  len (content (ingest self message)) <= 500 /\
  name (ingest self message) = Some (lit "bot").
Proof.
  intros self message.
  assert (kind message <> Other) as H1 by (simpl; congruence).
  assert (kind message <> System) as H2 by (simpl; congruence).
  destruct (ingest_properties self message) as (_ & _ & Hlen & Hname & _).
  split; [exact H1|]. split; [exact (Hlen H1) | exact (Hname H2)].
Defined.

Lemma get_recent_messages_bounds_witness :
  let self := mkManager 30 900000 5
                [HumanMessage (lit "a") None; HumanMessage (lit "b") None] None in
  len (messages self) <= 3 /\
  result (get_recent_messages 3) self = messages self /\
  result (get_recent_messages 0) self = [].
Proof.
  intros self.
  assert (len (messages self) <= 3) as H by (vm_compute; congruence).
  split; [exact H|]. split.
  - exact (proj1 (proj2 (proj2 (proj2 (get_recent_messages_bounds self 3)))) H).
  - exact (proj2 (proj2 (proj2 (proj2 (get_recent_messages_bounds self 0))))
             ltac:(lia)).
Defined.
